(** * Cursor pagination header of the streamlined issue event list

    A shallow embedding of [renderTableHeader], the render callback that
    [EventList] (static/app/views/issueDetails/streamline/eventList.tsx)
    hands to [EventsTable], together with the properties of the pagination
    controller it implements: the "Showing a-b of n" summary, the disabled
    flags of the previous/next buttons, and the locations the three link
    buttons point to. *)

From Stdlib Require Import ZArith Floats String Ascii List Bool Lia.
From stdpp Require Import base option list strings gmap.

Open Scope float_scope.
Open Scope string_scope.

(** A JavaScript [number]: an IEEE 754 double.  [+] on it is the rounding
    addition of the language, and [NaN] and the infinities are values. *)
Abbreviation number := float.

(** The integer a number stands for, when it stands for one: nothing for
    [NaN], the infinities and fractions. *)
Definition number_value (x : number) : option Z :=
  match Prim2SF x with
  | S754_zero _ => Some 0%Z
  | S754_finite negative m e =>
      let magnitude :=
        if (0 <=? e)%Z then Some (Z.pos m * 2 ^ e)%Z
        else if (Z.pos m mod 2 ^ (- e) =? 0)%Z
             then Some (Z.pos m / 2 ^ (- e))%Z
             else None in
      (fun v => if negative then (- v)%Z else v) <$> magnitude
  | _ => None
  end.

(** ** Data model *)

(** A value stored under a key of [location.query]
    ([string | string[] | null | undefined] in the router's typing).  An
    object literal such as [{cursor: undefined}] owns the key [cursor]: the
    key is in the map and its value is [QUndefined]. *)
Inductive QueryValue : Type :=
  | QUndefined
  | QNull
  | QString (s : string)
  | QArray (l : list string).

Abbreviation Query := (gmap string QueryValue).

(** The object returned by [useLocation()]. *)
Record Location : Type := mkLocation {
  pathname : string;
  search : string;
  hash : string;
  state : option string;
  action : string;
  key : string;
  query : option Query
}.

(** The value of a link button's [to] prop: an object literal in which
    every key but [pathname] may be missing. *)
Record LocationDescriptor : Type := mkDescriptor {
  to_pathname : string;
  to_search : option string;
  to_hash : option string;
  to_state : option string;
  to_action : option string;
  to_key : option string;
  to_query : option Query
}.

(** Modelled from the spec: the type of one entry of the value returned by
    [parseLinkHeader] (sentry/utils/parseLinkHeader is imported, its
    declaration is not part of this file).  [results] is the
    results-available flag, [cursor] the cursor token, either of which the
    code reads through [?.] and so may find missing. *)
Record LinkDescriptor : Type := mkLink {
  results : option bool;
  cursor : option string
}.

Record Links : Type := mkLinks {
  previous : option LinkDescriptor;
  next : option LinkDescriptor
}.

Inductive Direction : Type := Previous | Next.

#[global] Instance Direction_eq_dec : EqDecision Direction.
Proof. solve_decision. Defined.

Definition link_of (d : Direction) (links : Links) : option LinkDescriptor :=
  match d with
  | Previous => previous links
  | Next => next links
  end.

(** Modelled from the spec: the decoded cursor returned by [parseCursor]
    (sentry/utils/cursor is imported, its declaration is not part of this
    file).  Only [offset] is read here. *)
Record Cursor : Type := mkCursor {
  offset : number;
  value : string;
  hasResults : bool
}.

(** The interpolation arguments of ['Showing [start]-[end] of [count]']. *)
Record RangeSummary : Type := mkRange {
  start : number;
  end_ : number;
  count : number
}.

(** The argument object of the [renderTableHeader] callback. *)
Record TableHeaderArgs : Type := mkArgs {
  pageLinks : option string;
  pageEventsCount : number;
  totalEventsCount : number;
  isPending : bool
}.

Record Theme : Type := mkTheme {
  subText : string;
  fontWeightNormal : string
}.

(** The fields of the [group] prop that [EventList] reads. *)
Record Group : Type := mkGroup {
  group_id : string;
  group_title : string;
  group_type : string;
  issueType : string;
  project_slug : string
}.

(** What the closure of [renderTableHeader] has in scope from [EventList]:
    the [group] prop and the results of [useTheme], [useLocation],
    [useOrganization], [useRoutes] and [useGroupDetailsRoute]. *)
Record Env : Type := mkEnv {
  group : Group;
  theme : Theme;
  location : Location;
  organization : string;
  routes : list string;
  baseUrl : string
}.

(** The [css] template literal bound to [grayText]. *)
Record Css : Type := mkCss {
  css_color : string;
  css_font_weight : string
}.

Record LinkButton : Type := mkButton {
  aria_label : option string;
  to : LocationDescriptor;
  disabled : bool;
  css : Css
}.

(** The element tree returned by [renderTableHeader], reduced to the props
    that carry data. *)
Record HeaderView : Type := mkView {
  title : string;
  summary : option RangeSummary;
  previous_button : LinkButton;
  next_button : LinkButton;
  close_button : LinkButton
}.

(** ** JavaScript operators used by the callback *)

(** [v === false] on a value that may be missing. *)
Definition strict_eq_false (v : option bool) : bool :=
  match v with
  | Some false => true
  | _ => false
  end.

(** [location.query?.cursor]: a missing object or a missing key both read as
    [undefined]. *)
Definition query_get (q : option Query) (k : string) : QueryValue :=
  match q with
  | Some m => default QUndefined (m !! k)
  | None => QUndefined
  end.

(** [{...q}] with [q] possibly [undefined]. *)
Definition spread_query (q : option Query) : Query := default ∅ q.

(** A cursor token as a property value: a missing token is [undefined]. *)
Definition token_value (c : option string) : QueryValue :=
  match c with
  | Some s => QString s
  | None => QUndefined
  end.

(** [{...location, query: q}] *)
Definition spread_location (l : Location) (q : Query) : LocationDescriptor :=
  {| to_pathname := pathname l;
     to_search := Some (search l);
     to_hash := Some (hash l);
     to_state := state l;
     to_action := Some (action l);
     to_key := Some (key l);
     to_query := Some q |}.

(** Reading a key of a descriptor's query. *)
Definition to_query_lookup (t : LocationDescriptor) (k : string)
  : option QueryValue :=
  to_query t ≫= fun m => m !! k.

Definition query_lookup (l : Location) (k : string) : option QueryValue :=
  query l ≫= fun m => m !! k.

(** ** The render callback *)

Section Controller.

(** The two imported helpers.  Their code is outside this file, so the
    callback is embedded over any pair of such functions. *)
Variable parseLinkHeader : option string -> Links.
Variable parseCursor : QueryValue -> option Cursor.

Definition renderTableHeader (env : Env) (args : TableHeaderArgs)
  : HeaderView :=
  let grayText :=
    {| css_color := subText (theme env);
       css_font_weight := fontWeightNormal (theme env) |} in
  let location := location env in
  let links := parseLinkHeader (pageLinks args) in
  let previousDisabled := strict_eq_false (previous links ≫= results) in
  let nextDisabled := strict_eq_false (next links ≫= results) in
  let currentCursor := parseCursor (query_get (query location) "cursor") in
  let start := from_option offset 0 currentCursor in
  {| title := "All Events";
     summary :=
       if isPending args then None
       else Some {| start := start;
                    end_ := start + pageEventsCount args;
                    count := totalEventsCount args |};
     previous_button :=
       {| aria_label := Some "Previous Page";
          to := spread_location location
                  (<["cursor" := token_value (previous links ≫= cursor)]>
                     (spread_query (query location)));
          disabled := isPending args || previousDisabled;
          css := grayText |};
     next_button :=
       {| aria_label := Some "Next Page";
          to := spread_location location
                  (<["cursor" := token_value (next links ≫= cursor)]>
                     (spread_query (query location)));
          disabled := isPending args || nextDisabled;
          css := grayText |};
     close_button :=
       {| aria_label := None;
          to := {| to_pathname := baseUrl env;
                   to_search := None;
                   to_hash := None;
                   to_state := None;
                   to_action := None;
                   to_key := None;
                   to_query := query location |};
          disabled := false;
          css := grayText |} |}.

(** The button of a direction. *)
Definition button_of (d : Direction) (v : HeaderView) : LinkButton :=
  match d with
  | Previous => previous_button v
  | Next => next_button v
  end.

End Controller.

(** The outcome of a call that may throw. *)
Inductive Outcome (A : Type) : Type :=
  | Returned (a : A)
  | Thrown (error : string).

Arguments Returned {A}.
Arguments Thrown {A}.

(** The callback with the exceptions of its two helpers made explicit.  The
    helpers are called in the order of the source, [parseLinkHeader] first;
    what either throws leaves the callback, which has no [try].  Nothing
    else in the body can throw: it reads properties through [?.], adds two
    numbers and builds object literals. *)
Definition renderTableHeader_throwing
    (parseLinkHeader : option string -> Outcome Links)
    (parseCursor : QueryValue -> Outcome (option Cursor))
    (env : Env) (args : TableHeaderArgs) : Outcome HeaderView :=
  match parseLinkHeader (pageLinks args) with
  | Thrown error => Thrown error
  | Returned links =>
      match parseCursor (query_get (query (location env)) "cursor") with
      | Thrown error => Thrown error
      | Returned currentCursor =>
          Returned (renderTableHeader (fun _ => links) (fun _ => currentCursor)
                      env args)
      end
  end.


(** ** The link header parser *)

Module LinkHeaderParser.

(** The descriptor of a direction the header says nothing usable about. *)
Definition unavailable : LinkDescriptor :=
  {| results := Some false; cursor := None |}.

Definition no_links : Links :=
  {| previous := Some unavailable; next := Some unavailable |}.

Definition dir_name (d : Direction) : string :=
  match d with
  | Previous => "previous"
  | Next => "next"
  end.

Definition direction_of_string (s : string) : option Direction :=
  if String.eqb s "previous" then Some Previous
  else if String.eqb s "next" then Some Next
  else None.

(** The double quote character. *)
Definition dquote : ascii := "034"%char.

(** A text between double quotes. *)
Definition quoted (s : string) : string :=
  String dquote (s ++ String dquote EmptyString).

(** Cutting a string at every occurrence of a separator. *)
Fixpoint split_on (sep : ascii) (s : string) : list string :=
  match s with
  | EmptyString => [EmptyString]
  | String c rest =>
      if Ascii.eqb c sep then EmptyString :: split_on sep rest
      else match split_on sep rest with
           | [] => [String c EmptyString]
           | piece :: pieces => String c piece :: pieces
           end
  end.

Fixpoint ltrim (s : string) : string :=
  match s with
  | String c rest => if Ascii.eqb c " " then ltrim rest else s
  | EmptyString => EmptyString
  end.

Fixpoint rtrim (s : string) : string :=
  match s with
  | String c rest =>
      match rtrim rest with
      | EmptyString =>
          if Ascii.eqb c " " then EmptyString else String c EmptyString
      | kept => String c kept
      end
  | EmptyString => EmptyString
  end.

Definition trim (s : string) : string := rtrim (ltrim s).

(** The text before the first ["="] and the text after it. *)
Fixpoint cut_at_equals (s : string) : option (string * string) :=
  match s with
  | EmptyString => None
  | String c rest =>
      if Ascii.eqb c "=" then Some (EmptyString, rest)
      else '(k, v) ← cut_at_equals rest; Some (String c k, v)
  end.

(** The text up to a closing double quote that ends the string. *)
Fixpoint until_closing_quote (s : string) : option string :=
  match s with
  | EmptyString => None
  | String c rest =>
      if Ascii.eqb c dquote
      then match rest with EmptyString => Some EmptyString | _ => None end
      else String c <$> until_closing_quote rest
  end.

Definition unquote (s : string) : option string :=
  match s with
  | String c rest => if Ascii.eqb c dquote then until_closing_quote rest else None
  | EmptyString => None
  end.

(** One [key="value"] parameter. *)
Definition parse_attr (seg : string) : option (string * string) :=
  '(k, quoted) ← cut_at_equals seg;
  v ← unquote quoted;
  Some (k, v).

(** A [<uri>] reference: angle brackets around a text without [">"]. *)
Fixpoint closes_uri (s : string) : bool :=
  match s with
  | EmptyString => false
  | String c rest =>
      if Ascii.eqb c ">"
      then match rest with EmptyString => true | _ => false end
      else closes_uri rest
  end.

Definition is_uri_ref (s : string) : bool :=
  match s with
  | String c rest => Ascii.eqb c "<" && closes_uri rest
  | EmptyString => false
  end.

Fixpoint attr_lookup (k : string) (kvs : list (string * string))
  : option string :=
  match kvs with
  | [] => None
  | (k', v) :: rest => if String.eqb k' k then Some v else attr_lookup k rest
  end.

Definition bool_of_string (s : string) : option bool :=
  if String.eqb s "true" then Some true
  else if String.eqb s "false" then Some false
  else None.

(** The [;]-separated parts of one entry, blanks around each removed. *)
Definition segments (entry : string) : list string :=
  trim <$> split_on ";" entry.

(** The relation an entry names, read even from an entry that is
    unusable otherwise. *)
Definition entry_rel (entry : string) : option string :=
  attr_lookup "rel" (omap parse_attr (tail (segments entry))).

(** One entry [<uri>; rel="previous|next"; results="true|false";
    cursor="..."], the cursor being optional.  Anything else, and any other
    relation, gives [None]. *)
Definition parse_entry (entry : string)
  : option (Direction * LinkDescriptor) :=
  match segments entry with
  | uri :: params =>
      if is_uri_ref uri then
        kvs ← mapM parse_attr params;
        rel ← attr_lookup "rel" kvs;
        d ← direction_of_string rel;
        avail ← attr_lookup "results" kvs ≫= bool_of_string;
        Some (d, {| results := Some avail;
                    cursor := attr_lookup "cursor" kvs |})
      else None
  | [] => None
  end.

Definition set_link (d : Direction) (desc : LinkDescriptor) (links : Links)
  : Links :=
  match d with
  | Previous => {| previous := Some desc; next := next links |}
  | Next => {| previous := previous links; next := Some desc |}
  end.

Definition add_entry (links : Links) (entry : string) : Links :=
  match parse_entry entry with
  | Some (d, desc) => set_link d desc links
  | None => links
  end.

(** The [,]-separated entries of a header. *)
Definition entries (header : string) : list string :=
  split_on "," header.

(** Modelled from the spec: [parse], the link header parser
    (sentry/utils/parseLinkHeader, imported by eventList.tsx and not part of
    it).  Both directions are always populated; a direction with no entry,
    or with a malformed one, is [{cursor: absent, resultsAvailable: false}];
    entries of other relations are ignored; a cursor next to
    [results="false"] is kept, the flag alone disables the direction. *)
Definition parse (header : option string) : Links :=
  match header with
  | None => no_links
  | Some h => fold_left add_entry (entries h) no_links
  end.

(** A header has an entry for a direction when one of its entries names
    that direction as its relation. *)
Definition has_rel_entry (d : Direction) (header : option string) : Prop :=
  match header with
  | None => False
  | Some h => Some (dir_name d) ∈ entry_rel <$> entries h
  end.

(** A header is malformed when it has text and no entry of it can be
    read. *)
Definition malformed (header : option string) : Prop :=
  match header with
  | None => False
  | Some h => Forall (fun e => parse_entry e = None) (entries h)
  end.

(** The text [rel="previous"] or [rel="next"]. *)
Definition rel_token (d : Direction) : string :=
  "rel=" ++ quoted (dir_name d).

(** A text occurs in another one: somewhere, as it is. *)
Definition occurs_in (t s : string) : Prop :=
  exists before after, s = before ++ t ++ after.

#[global] Instance has_rel_entry_dec d header :
  Decision (has_rel_entry d header).
Proof. destruct header; simpl; apply _. Defined.

#[global] Instance malformed_dec header : Decision (malformed header).
Proof. destruct header; simpl; apply _. Defined.

(** An entry the parser reads, and reads for this direction. *)
Definition readable_for (d : Direction) (entry : string) : bool :=
  match parse_entry entry with
  | Some (d', _) => bool_decide (d = d')
  | None => false
  end.

(** A header has nothing readable for a direction: there is no header, or
    none of its entries is read for that direction. *)
Definition unreadable_for (d : Direction) (header : option string) : Prop :=
  match header with
  | None => True
  | Some h => Forall (fun e => readable_for d e = false) (entries h)
  end.

(** A header is malformed, in part at least, when some entry of it cannot
    be read. *)
Definition partly_malformed (header : option string) : Prop :=
  match header with
  | None => False
  | Some h => Exists (fun e => parse_entry e = None) (entries h)
  end.

#[global] Instance unreadable_for_dec d header :
  Decision (unreadable_for d header).
Proof. destruct header; simpl; apply _. Defined.

#[global] Instance partly_malformed_dec header :
  Decision (partly_malformed header).
Proof. destruct header; simpl; apply _. Defined.

End LinkHeaderParser.

(** The header of scenario A:
    [<u>; rel="previous"; results="false", <u>; rel="next"; results="true"; cursor="10:20:0"]. *)
Definition scenarioA : string :=
  "<u>; rel=" ++ LinkHeaderParser.quoted "previous"
  ++ "; results=" ++ LinkHeaderParser.quoted "false"
  ++ ", <u>; rel=" ++ LinkHeaderParser.quoted "next"
  ++ "; results=" ++ LinkHeaderParser.quoted "true"
  ++ "; cursor=" ++ LinkHeaderParser.quoted "10:20:0".

(** ** Sample inputs *)

Definition sample_theme : Theme :=
  {| subText := "#80708F"; fontWeightNormal := "400" |}.

Definition other_theme : Theme :=
  {| subText := "#3E3446"; fontWeightNormal := "600" |}.

(** A location on the second page of the list, with a second query key. *)
Definition sample_location : Location :=
  {| pathname := "/issues/42/events/";
     search := "?cursor=0:10:0&statsPeriod=14d";
     hash := "";
     state := None;
     action := "PUSH";
     key := "k1";
     query := Some (<["cursor" := QString "0:10:0"]>
                      (<["statsPeriod" := QString "14d"]> ∅)) |}.

Definition sample_group : Group :=
  {| group_id := "42";
     group_title := "TypeError";
     group_type := "error";
     issueType := "error";
     project_slug := "frontend" |}.

Definition sample_env : Env :=
  {| group := sample_group;
     theme := sample_theme;
     location := sample_location;
     organization := "acme";
     routes := ["/issues/:groupId/events/"];
     baseUrl := "/issues/42/" |}.

(** The same location seen from another group, organization, theme and base
    URL. *)
Definition other_env : Env :=
  {| group := {| group_id := "43";
                 group_title := "Slow DB Query";
                 group_type := "generic";
                 issueType := "performance_slow_db_query";
                 project_slug := "backend" |};
     theme := other_theme;
     location := sample_location;
     organization := "initech";
     routes := [];
     baseUrl := "/organizations/initech/issues/43/" |}.

(** A header with an entry for the previous direction only. *)
Definition previous_only : string :=
  "<u>; rel=" ++ LinkHeaderParser.quoted "previous"
  ++ "; results=" ++ LinkHeaderParser.quoted "true"
  ++ "; cursor=" ++ LinkHeaderParser.quoted "0:0:1".

(** A cursor decoder for the samples: it knows the one cursor of
    [sample_location]. *)
Definition sample_parseCursor (v : QueryValue) : option Cursor :=
  match v with
  | QString s =>
      if String.eqb s "0:10:0"
      then Some {| offset := 10; value := "0"; hasResults := false |}
      else None
  | _ => None
  end.

(** Links in which the next direction has results and no cursor token. *)
Definition tokenless_next : Links :=
  {| previous := Some {| results := Some false; cursor := None |};
     next := Some {| results := Some true; cursor := None |} |}.

(** The links of scenario A. *)
Definition scenarioA_links : Links :=
  {| previous := Some {| results := Some false; cursor := None |};
     next := Some {| results := Some true; cursor := Some "10:20:0" |} |}.

(** The same links with a cursor token on the next direction. *)
Definition token_next : Links :=
  {| previous := Some {| results := Some false; cursor := None |};
     next := Some {| results := Some true; cursor := Some "0:30:0" |} |}.

Definition sample_args (header : option string) (pending : bool)
  : TableHeaderArgs :=
  {| pageLinks := header;
     pageEventsCount := 20;
     totalEventsCount := 57;
     isPending := pending |}.

(** The derived header state: the range, the two disabled flags and the two
    navigation targets. *)
Record DerivedState : Type := mkDerived {
  ds_summary : option RangeSummary;
  ds_previous_disabled : bool;
  ds_next_disabled : bool;
  ds_previous_to : LocationDescriptor;
  ds_next_to : LocationDescriptor
}.

Definition derived (v : HeaderView) : DerivedState :=
  {| ds_summary := summary v;
     ds_previous_disabled := disabled (previous_button v);
     ds_next_disabled := disabled (next_button v);
     ds_previous_to := to (previous_button v);
     ds_next_to := to (next_button v) |}.


(** ** The component *)

(** [a || b] on two strings: the empty string is the one falsy string. *)
Definition js_or (a b : string) : string :=
  if String.eqb a "" then b else a.

(** [err ?? ''] *)
Definition nullish_or_empty (err : option string) : string :=
  default "" err.

Module EventsTable.

(** The props [EventList] passes to [EventsTable].  [setError] is given as
    the value the callback hands to the state setter. *)
Record Props (EventView : Type) : Type := mkProps {
  eventView : EventView;
  location : Location;
  issueId : string;
  isRegressionIssue : bool;
  organization : string;
  routes : list string;
  excludedTags : list string;
  projectSlug : string;
  customColumns : list string;
  setError : option string -> string;
  transactionName : string;
  columnTitles : list string;
  referrer : string;
  hidePagination : bool;
  renderTableHeader : TableHeaderArgs -> HeaderView
}.

Arguments mkProps {EventView}.
Arguments eventView {EventView}.
Arguments location {EventView}.
Arguments issueId {EventView}.
Arguments isRegressionIssue {EventView}.
Arguments organization {EventView}.
Arguments routes {EventView}.
Arguments excludedTags {EventView}.
Arguments projectSlug {EventView}.
Arguments customColumns {EventView}.
Arguments setError {EventView}.
Arguments transactionName {EventView}.
Arguments columnTitles {EventView}.
Arguments referrer {EventView}.
Arguments hidePagination {EventView}.
Arguments renderTableHeader {EventView}.

End EventsTable.

Section Component.

(** What [EventList] imports: the two parsers, the two hooks that build the
    columns and the event view, the excluded tags and the two regression
    members of [IssueType]. *)
Variable parseLinkHeader : option string -> Links.
Variable parseCursor : QueryValue -> option Cursor.
Variable EventView : Type.
Variable useEventColumns : Group -> string -> list string * list string.
Variable useIssueDetailsEventView : Group -> list string -> EventView.
Variable ALL_EVENTS_EXCLUDED_TAGS : list string.
Variable PERFORMANCE_DURATION_REGRESSION : string.
Variable PERFORMANCE_ENDPOINT_REGRESSION : string.

Definition EventList (env : Env) : EventsTable.Props EventView :=
  let referrer := "issue_details.streamline_list" in
  let '(fields, columnTitles) :=
    useEventColumns (group env) (organization env) in
  let eventView := useIssueDetailsEventView (group env) fields in
  let isRegressionIssue :=
    String.eqb (issueType (group env)) PERFORMANCE_DURATION_REGRESSION
    || String.eqb (issueType (group env)) PERFORMANCE_ENDPOINT_REGRESSION in
  {| EventsTable.eventView := eventView;
     EventsTable.location := location env;
     EventsTable.issueId := group_id (group env);
     EventsTable.isRegressionIssue := isRegressionIssue;
     EventsTable.organization := organization env;
     EventsTable.routes := routes env;
     EventsTable.excludedTags := ALL_EVENTS_EXCLUDED_TAGS;
     EventsTable.projectSlug := project_slug (group env);
     EventsTable.customColumns := ["minidump"];
     EventsTable.setError := fun err => nullish_or_empty err;
     EventsTable.transactionName :=
       js_or (group_title (group env)) (group_type (group env));
     EventsTable.columnTitles := columnTitles;
     EventsTable.referrer := referrer;
     EventsTable.hidePagination := true;
     EventsTable.renderTableHeader :=
       renderTableHeader parseLinkHeader parseCursor env |}.

(** The error state of the component after the table has reported a run of
    errors: [useState('')] starts it at the empty string and every call of
    the [setError] prop replaces it. *)
Definition error_after (env : Env) (reports : list (option string)) : string :=
  fold_left (fun _ err => EventsTable.setError (EventList env) err) reports "".

End Component.

(** Sample values for the component's imports. *)
Definition sample_columns (g : Group) (org : string)
  : list string * list string :=
  (["id"; "timestamp"], ["Event ID"; "Timestamp"]).

Definition sample_event_view (g : Group) (fields : list string) : list string :=
  group_id g :: fields.

(** A group without a title. *)
Definition untitled_group : Group :=
  {| group_id := "44";
     group_title := "";
     group_type := "csp";
     issueType := "error";
     project_slug := "frontend" |}.

(** The sample location stripped of its query object. *)
Definition bare_location : Location :=
  {| pathname := "/issues/42/events/";
     search := "";
     hash := "";
     state := None;
     action := "POP";
     key := "k0";
     query := None |}.

(** The sample location with the [cursor] key holding [undefined], the way
    a tokenless target leaves it. *)
Definition undefined_cursor_location : Location :=
  {| pathname := "/issues/42/events/";
     search := "?statsPeriod=14d";
     hash := "";
     state := None;
     action := "PUSH";
     key := "k2";
     query := Some (<["cursor" := QUndefined]>
                      (<["statsPeriod" := QString "14d"]> ∅)) |}.

(** The same location with no [cursor] key. *)
Definition no_cursor_location : Location :=
  {| pathname := "/issues/42/events/";
     search := "?statsPeriod=14d";
     hash := "";
     state := None;
     action := "PUSH";
     key := "k2";
     query := Some (delete "cursor" (<["statsPeriod" := QString "14d"]> ∅)) |}.

Definition env_at (l : Location) : Env :=
  {| group := sample_group;
     theme := sample_theme;
     location := l;
     organization := "acme";
     routes := ["/issues/:groupId/events/"];
     baseUrl := "/issues/42/" |}.

(** The location the router shows after the next target of scenario A has
    been followed from the sample location. *)
Definition followed_next_location : Location :=
  {| pathname := "/issues/42/events/";
     search := "?cursor=10:20:0&statsPeriod=14d";
     hash := "";
     state := None;
     action := "PUSH";
     key := "k3";
     query := Some (<["cursor" := QString "10:20:0"]>
                      (<["cursor" := QString "0:10:0"]>
                         (<["statsPeriod" := QString "14d"]> ∅))) |}.


(** A location far into the list: the cursor's offset is 2^53. *)
Definition far_location : Location :=
  {| pathname := "/issues/42/events/";
     search := "?cursor=0:9007199254740992:0";
     hash := "";
     state := None;
     action := "PUSH";
     key := "k4";
     query := Some (<["cursor" := QString "0:9007199254740992:0"]> ∅) |}.

(** A cursor decoder that knows the cursor of [far_location]. *)
Definition far_parseCursor (v : QueryValue) : option Cursor :=
  match v with
  | QString s =>
      if String.eqb s "0:9007199254740992:0"
      then Some {| offset := 9007199254740992; value := "0";
                   hasResults := false |}
      else None
  | _ => None
  end.

(** A cursor decoder that knows the cursors of the first pages. *)
Definition paging_parseCursor (v : QueryValue) : option Cursor :=
  match v with
  | QString s =>
      if String.eqb s "0:10:0"
      then Some {| offset := 10; value := "0"; hasResults := false |}
      else if String.eqb s "10:20:0"
      then Some {| offset := 20; value := "10"; hasResults := false |}
      else None
  | _ => None
  end.

(** * Facts about the link header parser *)

Section ParserFacts.

Import LinkHeaderParser.

Lemma mapM_omap {A B} (f : A -> option B) (l : list A) (k : list B) :
  mapM f l = Some k -> omap f l = k.
Proof.
  revert k. induction l as [|x l IH]; intros k; simpl.
  - by intros [= <-].
  - destruct (f x) as [y|]; simpl; [|done].
    destruct (mapM f l) as [k'|]; simpl; [|done].
    intros [= <-]. f_equal. by apply IH.
Qed.

Lemma direction_of_string_name s d :
  direction_of_string s = Some d -> s = dir_name d.
Proof.
  unfold direction_of_string.
  destruct (String.eqb s "previous") eqn:Hp.
  - intros [= <-]. by apply String.eqb_eq.
  - destruct (String.eqb s "next") eqn:Hn; [|done].
    intros [= <-]. by apply String.eqb_eq.
Qed.

Lemma dir_name_inj d d' : dir_name d = dir_name d' -> d = d'.
Proof. by destruct d, d'. Qed.

(** An entry the parser accepts for a direction names that direction. *)
Lemma parse_entry_rel e d desc :
  parse_entry e = Some (d, desc) -> entry_rel e = Some (dir_name d).
Proof.
  unfold parse_entry, entry_rel.
  destruct (segments e) as [|uri params]; [done |].
  destruct (is_uri_ref uri); [|done]. simpl.
  destruct (mapM parse_attr params) as [kvs|] eqn:Hkvs; simpl; [|done].
  rewrite (mapM_omap _ _ _ Hkvs).
  destruct (attr_lookup "rel" kvs) as [rel|]; simpl; [|done].
  destruct (direction_of_string rel) as [d0|] eqn:Hd; simpl; [|done].
  destruct (attr_lookup "results" kvs ≫= bool_of_string); simpl; [|done].
  intros [= <- _]. f_equal. by apply direction_of_string_name.
Qed.

Lemma link_of_set_link d d' desc links :
  link_of d (set_link d' desc links)
  = if decide (d = d') then Some desc else link_of d links.
Proof. by destruct d, d'. Qed.

(** An entry that names another relation leaves a direction as it was. *)
Lemma add_entry_frame d links e :
  entry_rel e <> Some (dir_name d) ->
  link_of d (add_entry links e) = link_of d links.
Proof.
  intros Hrel. unfold add_entry.
  destruct (parse_entry e) as [[d' desc]|] eqn:He; [|done].
  rewrite link_of_set_link. case_decide as Hd; [|done].
  subst d'. by apply parse_entry_rel in He.
Qed.

Lemma fold_entries_frame d (l : list string) links :
  Some (dir_name d) ∉ entry_rel <$> l ->
  link_of d (fold_left add_entry l links) = link_of d links.
Proof.
  revert links. induction l as [|e l IH]; intros links Hnot; simpl; [done |].
  rewrite fmap_cons, not_elem_of_cons in Hnot. destruct Hnot as [He Hl].
  rewrite IH by done. apply add_entry_frame. congruence.
Qed.

(** A direction the header has no entry for is unavailable. *)
Lemma parse_without_rel d header :
  ~ has_rel_entry d header -> link_of d (parse header) = Some unavailable.
Proof.
  destruct header as [h|]; simpl; intros Hnot.
  - rewrite fold_entries_frame by done. by destruct d.
  - by destruct d.
Qed.

Lemma fold_unreadable (l : list string) links :
  Forall (fun e => parse_entry e = None) l ->
  fold_left add_entry l links = links.
Proof.
  revert links. induction l as [|e l IH]; intros links Hall; simpl; [done |].
  inversion Hall as [|? ? He Hl]; subst.
  rewrite IH by done. unfold add_entry. by rewrite He.
Qed.

(** A header with nothing readable, or no header, gives no links. *)
Lemma parse_malformed header :
  malformed header \/ header = None -> parse header = no_links.
Proof.
  intros [Hm | ->]; [|done].
  destruct header as [h|]; simpl in *; [|done]. by apply fold_unreadable.
Qed.




(** Both directions always come back, each with a flag. *)
Lemma add_entry_populated links e d :
  is_Some (link_of d links ≫= results) ->
  is_Some (link_of d (add_entry links e) ≫= results).
Proof.
  intros Hs. unfold add_entry.
  destruct (parse_entry e) as [[d' desc]|] eqn:He; [|done].
  rewrite link_of_set_link. case_decide; [|done].
  unfold parse_entry in He.
  destruct (segments e) as [|uri params]; [done |].
  destruct (is_uri_ref uri); [|done]. simpl in He.
  destruct (mapM parse_attr params) as [kvs|]; simpl in He; [|done].
  destruct (attr_lookup "rel" kvs) as [rel|]; simpl in He; [|done].
  destruct (direction_of_string rel); simpl in He; [|done].
  destruct (attr_lookup "results" kvs ≫= bool_of_string); simpl in He; [|done].
  injection He as _ <-. simpl. eauto.
Qed.

Lemma parse_populated header d :
  is_Some (link_of d (parse header) ≫= results).
Proof.
  destruct header as [h|]; simpl; [|destruct d; simpl; eauto].
  assert (Hinit : is_Some (link_of d no_links ≫= results))
    by (destruct d; simpl; eauto).
  revert Hinit. generalize no_links. unfold entries.
  induction (split_on "," h) as [|e l IH]; intros links Hs; simpl; [done |].
  apply IH. by apply add_entry_populated.
Qed.

(** *** Reading the header as text *)

Lemma str_app_cons c (a b : string) : String c a ++ b = String c (a ++ b).
Proof. reflexivity. Qed.

Lemma str_app_nil_l (s : string) : "" ++ s = s.
Proof. reflexivity. Qed.

Lemma str_app_nil_r (s : string) : s ++ "" = s.
Proof.
  induction s as [|c s IH]; [done |]. by rewrite str_app_cons, IH.
Qed.

Lemma str_app_assoc (a b c : string) : (a ++ b) ++ c = a ++ b ++ c.
Proof.
  induction a as [|x a IH]; [done |]. by rewrite !str_app_cons, IH.
Qed.

Lemma occurs_in_refl s : occurs_in s s.
Proof. exists "", "". by rewrite str_app_nil_l, str_app_nil_r. Qed.

Lemma occurs_in_trans a b c : occurs_in a b -> occurs_in b c -> occurs_in a c.
Proof.
  intros (p1 & q1 & ->) (p2 & q2 & ->).
  exists (p2 ++ p1), (q1 ++ q2). by rewrite !str_app_assoc.
Qed.

Lemma occurs_in_cons c t s : occurs_in t s -> occurs_in t (String c s).
Proof. intros (p & q & ->). by exists (String c p), q. Qed.

Lemma occurs_in_prefix t rest : occurs_in t (t ++ rest).
Proof. by exists "", rest. Qed.

Lemma occurs_in_suffix before t : occurs_in t (before ++ t).
Proof. exists before, "". by rewrite str_app_nil_r. Qed.

Lemma split_on_head sep s :
  exists piece pieces rest,
    split_on sep s = piece :: pieces /\ s = piece ++ rest.
Proof.
  induction s as [|c s (piece & pieces & rest & Hsplit & Hs)]; simpl.
  - by exists "", [], "".
  - destruct (Ascii.eqb c sep).
    + by exists "", (split_on sep s), (String c s).
    + rewrite Hsplit. exists (String c piece), pieces, rest.
      split; [done |]. by rewrite str_app_cons, <- Hs.
Qed.

(** Every piece of a cut text occurs in the text. *)
Lemma split_on_occurs sep s piece :
  piece ∈ split_on sep s -> occurs_in piece s.
Proof.
  induction s as [|c s IH]; simpl.
  - intros ->%list_elem_of_singleton. apply occurs_in_refl.
  - destruct (Ascii.eqb c sep).
    + intros [-> | Hin]%elem_of_cons.
      * by exists "", (String c s).
      * apply occurs_in_cons. by apply IH.
    + destruct (split_on_head sep s) as (p & ps & rest & Hsplit & Hs).
      rewrite Hsplit in IH |- *.
      intros [-> | Hin]%elem_of_cons.
      * rewrite Hs. apply (occurs_in_prefix (String c p) rest).
      * apply occurs_in_cons, IH. by right.
Qed.

Lemma ltrim_occurs s : occurs_in (ltrim s) s.
Proof.
  induction s as [|c s IH]; simpl; [apply occurs_in_refl |].
  destruct (Ascii.eqb c " ").
  - by apply occurs_in_cons.
  - apply occurs_in_refl.
Qed.

Lemma rtrim_prefix s : exists rest, s = rtrim s ++ rest.
Proof.
  induction s as [|c s [rest Hrest]]; simpl; [by exists "" |].
  destruct (rtrim s) as [|c' kept] eqn:Hkept.
  - destruct (Ascii.eqb c " ").
    + by exists (String c s).
    + exists s. done.
  - exists rest. by rewrite str_app_cons, <- Hrest.
Qed.

Lemma trim_occurs s : occurs_in (trim s) s.
Proof.
  unfold trim. apply occurs_in_trans with (ltrim s); [|apply ltrim_occurs].
  destruct (rtrim_prefix (ltrim s)) as [rest Hrest].
  rewrite Hrest at 2. apply occurs_in_prefix.
Qed.

Lemma cut_at_equals_text s k v :
  cut_at_equals s = Some (k, v) -> s = k ++ String "=" v.
Proof.
  revert k. induction s as [|c s IH]; intros k; simpl; [done |].
  destruct (Ascii.eqb c "=") eqn:Hc.
  - intros [= <- <-]. rewrite str_app_nil_l. f_equal.
    by apply Ascii.eqb_eq in Hc as ->.
  - destruct (cut_at_equals s) as [[k' v']|]; simpl; [|done].
    intros [= <- <-]. rewrite str_app_cons. f_equal. by apply IH.
Qed.

Lemma until_closing_quote_text s v :
  until_closing_quote s = Some v -> s = v ++ String dquote "".
Proof.
  revert v. induction s as [|c s IH]; intros v; simpl; [done |].
  destruct (Ascii.eqb c dquote) eqn:Hc.
  - destruct s; [|done]. intros [= <-]. rewrite str_app_nil_l.
    by apply Ascii.eqb_eq in Hc as ->.
  - destruct (until_closing_quote s) as [v'|]; simpl; [|done].
    intros [= <-]. rewrite str_app_cons. f_equal. by apply IH.
Qed.

Lemma unquote_text s v : unquote s = Some v -> s = quoted v.
Proof.
  destruct s as [|c s]; simpl; [done |].
  destruct (Ascii.eqb c dquote) eqn:Hc; [|done].
  intros Hv%until_closing_quote_text. unfold quoted.
  apply Ascii.eqb_eq in Hc as ->. by rewrite Hv.
Qed.

(** A parameter the parser reads is the text [key="value"], to the
    letter. *)
Lemma parse_attr_text seg k v :
  parse_attr seg = Some (k, v) -> seg = k ++ String "=" (quoted v).
Proof.
  unfold parse_attr.
  destruct (cut_at_equals seg) as [[k' q]|] eqn:Hcut; simpl; [|done].
  destruct (unquote q) as [v'|] eqn:Hq; simpl; [|done].
  intros [= <- <-]. apply unquote_text in Hq as ->.
  by apply cut_at_equals_text.
Qed.

Lemma attr_lookup_omap k v (segs : list string) :
  attr_lookup k (omap parse_attr segs) = Some v ->
  exists seg, seg ∈ segs /\ parse_attr seg = Some (k, v).
Proof.
  induction segs as [|seg segs IH]; simpl; [done |].
  destruct (parse_attr seg) as [[k' v']|] eqn:Hseg; simpl.
  - destruct (String.eqb k' k) eqn:Hk.
    + intros [= <-]. apply String.eqb_eq in Hk as <-.
      exists seg. split; [by left | done].
    + intros (seg' & Hin & Hp)%IH. exists seg'. split; [by right | done].
  - intros (seg' & Hin & Hp)%IH. exists seg'. split; [by right | done].
Qed.

(** An entry that names a direction contains the text [rel="<direction>"]. *)
Lemma entry_rel_occurs e d :
  entry_rel e = Some (dir_name d) -> occurs_in (rel_token d) e.
Proof.
  unfold entry_rel. intros (seg & Hin & Hattr)%attr_lookup_omap.
  apply parse_attr_text in Hattr.
  assert (Hseg : seg ∈ segments e).
  { destruct (segments e) as [|uri params]; simpl in Hin; [done | by right]. }
  unfold segments in Hseg. apply list_elem_of_fmap in Hseg as (raw & -> & Hraw).
  apply occurs_in_trans with raw; [|by apply split_on_occurs in Hraw].
  unfold rel_token. change ("rel=" ++ quoted (dir_name d))
    with ("rel" ++ String "=" (quoted (dir_name d))).
  rewrite <- Hattr. apply trim_occurs.
Qed.

(** A header in whose text [rel="<direction>"] occurs nowhere has no entry
    for that direction. *)
Lemma rel_token_absent d h :
  ~ occurs_in (rel_token d) h -> ~ has_rel_entry d (Some h).
Proof.
  intros Habsent Hin. apply Habsent. simpl in Hin.
  apply list_elem_of_fmap in Hin as (e & Hrel & He).
  apply occurs_in_trans with e; [by apply entry_rel_occurs |].
  by apply split_on_occurs in He.
Qed.

Lemma parse_scenarioA :
  parse (Some scenarioA) = scenarioA_links.
Proof. vm_compute. reflexivity. Qed.

End ParserFacts.

(** * Properties of the callback, for any parser and any cursor decoder *)

Lemma disabled_button_of parseLinkHeader parseCursor env args d :
  disabled (button_of d (renderTableHeader parseLinkHeader parseCursor env args))
  = isPending args
    || strict_eq_false (link_of d (parseLinkHeader (pageLinks args)) ≫= results).
Proof. by destruct d. Qed.

Lemma to_button_of parseLinkHeader parseCursor env args d :
  to (button_of d (renderTableHeader parseLinkHeader parseCursor env args))
  = spread_location (location env)
      (<["cursor" :=
           token_value (link_of d (parseLinkHeader (pageLinks args)) ≫= cursor)]>
         (spread_query (query (location env)))).
Proof. by destruct d. Qed.

Lemma strict_eq_false_spec v : strict_eq_false v = true <-> v = Some false.
Proof. destruct v as [[]|]; simpl; split; congruence. Qed.

Lemma spread_query_lookup q k : spread_query q !! k = q ≫= fun m => m !! k.
Proof. destruct q; simpl; [done | apply lookup_empty]. Qed.

Section ControllerProperties.

Variable parseLinkHeader : option string -> Links.
Variable parseCursor : QueryValue -> option Cursor.

Abbreviation render := (renderTableHeader parseLinkHeader parseCursor).

(** C2, as the code has it: while the page is pending no summary is
    rendered; otherwise the summary is [{start: offset, end: offset +
    pageEventsCount, count: totalEventsCount}], where [+] is the addition of
    two doubles, [offset] is the decoded cursor's offset, and 0 when the
    decoder returns nothing for the location's cursor parameter. *)
Theorem summary_range env args :
  let v := render env args in
  match isPending args,
        parseCursor (query_get (query (location env)) "cursor") with
  | true, _ => summary v = None
  | false, Some c =>
      summary v = Some {| start := offset c;
                          end_ := offset c + pageEventsCount args;
                          count := totalEventsCount args |}
  | false, None =>
      summary v = Some {| start := 0;
                          end_ := 0 + pageEventsCount args;
                          count := totalEventsCount args |}
  end.
Proof.
  simpl. destruct (isPending args); [done |].
  by destruct (parseCursor _).
Qed.

(** C3: a direction's button is disabled exactly when the page is pending
    or the direction's [results] flag is [false]; so two link values that
    agree on that flag give the same answer, whatever their cursor
    tokens. *)
Theorem direction_disabled env args d :
  let links := parseLinkHeader (pageLinks args) in
  let b := button_of d (render env args) in
  (disabled b = true <->
     isPending args = true \/ link_of d links ≫= results = Some false)
  /\ (forall (parse' : option string -> Links),
        link_of d (parse' (pageLinks args)) ≫= results
        = link_of d links ≫= results ->
        disabled (button_of d (renderTableHeader parse' parseCursor env args))
        = disabled b).
Proof.
  cbv zeta. split.
  - rewrite disabled_button_of, orb_true_iff, strict_eq_false_spec. done.
  - intros parse' Hres. rewrite !disabled_button_of, Hres. done.
Qed.

(** C4: the target of a direction's button is the current location with the
    [cursor] key of its query set to that direction's cursor token, the
    string itself ([undefined] when the direction has no token); the path,
    the other location fields and every other query key are those of the
    current location. *)
Theorem nav_target_frame env args d :
  let loc := location env in
  let links := parseLinkHeader (pageLinks args) in
  let t := to (button_of d (render env args)) in
  to_pathname t = pathname loc
  /\ to_search t = Some (search loc)
  /\ to_hash t = Some (hash loc)
  /\ to_state t = state loc
  /\ to_action t = Some (action loc)
  /\ to_key t = Some (key loc)
  /\ match link_of d links ≫= cursor with
     | Some token => to_query_lookup t "cursor" = Some (QString token)
     | None => to_query_lookup t "cursor" = Some QUndefined
     end
  /\ (forall k, k <> "cursor" -> to_query_lookup t k = query_lookup loc k).
Proof.
  cbv zeta. rewrite to_button_of. unfold to_query_lookup, query_lookup; simpl.
  repeat split.
  - rewrite lookup_insert_eq.
    by destruct (link_of d (parseLinkHeader (pageLinks args)) ≫= cursor).
  - intros k Hk. rewrite lookup_insert_ne by done. apply spread_query_lookup.
Qed.

(** C5, as the code has it: when the direction's descriptor carries no
    cursor token, the target's query still owns the key [cursor], and the
    value under it is [undefined]; no token is carried. *)
Theorem tokenless_target_cursor env args d :
  link_of d (parseLinkHeader (pageLinks args)) ≫= cursor = None ->
  to_query_lookup (to (button_of d (render env args))) "cursor"
  = Some QUndefined.
Proof.
  intros Hc. rewrite to_button_of, Hc. apply lookup_insert_eq.
Qed.

(** C9: the close button points to [baseUrl] and carries the current query
    as it is: every key reads as in the current location, [cursor]
    included. *)
Theorem close_target env args :
  let t := to (close_button (render env args)) in
  to_pathname t = baseUrl env
  /\ to_query t = query (location env)
  /\ (forall k, to_query_lookup t k = query_lookup (location env) k)
  /\ to_query_lookup t "cursor" = query_lookup (location env) "cursor".
Proof. by repeat split. Qed.

(** What [links.previous?.results === false] does with a direction the
    links object does not have at all: the button is enabled once the page
    has loaded. *)
Lemma missing_descriptor_enabled env args d :
  link_of d (parseLinkHeader (pageLinks args)) = None ->
  disabled (button_of d (render env args)) = isPending args.
Proof.
  intros H. rewrite disabled_button_of, H. simpl. apply orb_false_r.
Qed.

End ControllerProperties.

(** * Properties of the callback over the link header parser *)

Section HeaderProperties.

Variable parseCursor : QueryValue -> option Cursor.

Abbreviation render_parsed :=
  (renderTableHeader LinkHeaderParser.parse parseCursor).

(** C1: a direction the header has no [rel] entry for is disabled, whether
    the page is pending or not. *)
Theorem direction_without_rel_disabled env args d :
  ~ LinkHeaderParser.has_rel_entry d (pageLinks args) ->
  disabled (button_of d (render_parsed env args)) = true.
Proof.
  intros Hnot. rewrite disabled_button_of.
  rewrite (parse_without_rel d _ Hnot). simpl. apply orb_true_r.
Qed.

(** C6: scenario A.  With the header of scenario A, 20 events on the page,
    57 in all, a current cursor of offset 10 and the page loaded: the summary
    is 10-30 of 57, previous is disabled, next is enabled, and the next
    target carries [cursor = "10:20:0"] and every other query key of the
    current location. *)
Theorem scenario_A env c :
  parseCursor (query_get (query (location env)) "cursor") = Some c ->
  offset c = 10 ->
  let v := render_parsed env
             {| pageLinks := Some scenarioA;
                pageEventsCount := 20;
                totalEventsCount := 57;
                isPending := false |} in
  summary v = Some {| start := 10; end_ := 30; count := 57 |}
  /\ disabled (previous_button v) = true
  /\ disabled (next_button v) = false
  /\ to_query_lookup (to (next_button v)) "cursor" = Some (QString "10:20:0")
  /\ (forall k, k <> "cursor" ->
        to_query_lookup (to (next_button v)) k
        = query_lookup (location env) k)
  /\ to_pathname (to (next_button v)) = pathname (location env).
Proof.
  intros Hc Hoff. cbv zeta.
  unfold renderTableHeader. cbn [pageLinks pageEventsCount totalEventsCount isPending].
  rewrite parse_scenarioA, Hc. cbn -[insert spread_query]. rewrite Hoff.
  unfold to_query_lookup; cbn -[insert spread_query].
  repeat split.
  - apply lookup_insert_eq.
  - intros k Hk. rewrite lookup_insert_ne by done. apply spread_query_lookup.
Qed.

End HeaderProperties.

(** An exception of either helper leaves the callback. *)
Lemma helper_exception_propagates parseLinkHeader parseCursor env args error :
  parseLinkHeader (pageLinks args) = Thrown error
  \/ (exists links, parseLinkHeader (pageLinks args) = Returned links)
     /\ parseCursor (query_get (query (location env)) "cursor") = Thrown error ->
  renderTableHeader_throwing parseLinkHeader parseCursor env args
  = Thrown error.
Proof.
  unfold renderTableHeader_throwing.
  intros [-> | [[links ->] ->]]; reflexivity.
Qed.


(** C7: the target of a direction's button is a function of the direction,
    the links and the current location: two evaluations that agree on these
    three give equal targets, whatever else differs between them. *)
Theorem nav_target_deterministic
    (parse1 parse2 : option string -> Links)
    (parseCursor1 parseCursor2 : QueryValue -> option Cursor)
    (env1 env2 : Env) (args1 args2 : TableHeaderArgs) (d1 d2 : Direction) :
  d1 = d2 ->
  parse1 (pageLinks args1) = parse2 (pageLinks args2) ->
  location env1 = location env2 ->
  to (button_of d1 (renderTableHeader parse1 parseCursor1 env1 args1))
  = to (button_of d2 (renderTableHeader parse2 parseCursor2 env2 args2)).
Proof.
  intros -> Hlinks Hloc. rewrite !to_button_of. by rewrite Hlinks, Hloc.
Qed.

(** Following a target and computing it again changes nothing more: setting
    the [cursor] key twice to the same token is setting it once. *)
Lemma nav_query_idempotent (v : QueryValue) (q : Query) :
  <["cursor" := v]> (<["cursor" := v]> q) = <["cursor" := v]> q.
Proof. apply insert_insert_eq. Qed.

(** C10: the derived header state is a function of the five inputs
    [pageLinks], [pageEventsCount], [totalEventsCount], [isPending] and the
    current location: two evaluations that agree on them give the same
    derived state, whatever the theme and the base URL are. *)
Theorem derived_state_inputs
    (parseLinkHeader : option string -> Links)
    (parseCursor : QueryValue -> option Cursor)
    (env1 env2 : Env) (args1 args2 : TableHeaderArgs) :
  pageLinks args1 = pageLinks args2 ->
  pageEventsCount args1 = pageEventsCount args2 ->
  totalEventsCount args1 = totalEventsCount args2 ->
  isPending args1 = isPending args2 ->
  location env1 = location env2 ->
  derived (renderTableHeader parseLinkHeader parseCursor env1 args1)
  = derived (renderTableHeader parseLinkHeader parseCursor env2 args2).
Proof.
  intros Hl He Ht Hp Hloc. unfold derived, renderTableHeader. simpl.
  by rewrite Hl, He, Ht, Hp, Hloc.
Qed.

(** * Concrete evaluations *)

Lemma direction_without_rel_disabled_witness :
  ~ LinkHeaderParser.has_rel_entry Next (Some previous_only)
  /\ disabled (next_button
       (renderTableHeader LinkHeaderParser.parse sample_parseCursor
          sample_env (sample_args (Some previous_only) false))) = true.
Proof.
  assert (H : ~ LinkHeaderParser.has_rel_entry Next (Some previous_only))
    by (apply (proj1 (bool_decide_eq_false _)); vm_compute; reflexivity).
  split; [exact H |].
  exact (direction_without_rel_disabled sample_parseCursor sample_env
           (sample_args (Some previous_only) false) Next H).
Defined.

(** Two link values that differ in the next cursor token only: the next
    button is enabled under both. *)
Lemma direction_disabled_witness :
  disabled (next_button
     (renderTableHeader (fun _ => token_next) sample_parseCursor
        sample_env (sample_args None false)))
  = disabled (next_button
     (renderTableHeader (fun _ => tokenless_next) sample_parseCursor
        sample_env (sample_args None false))).
Proof.
  apply (proj2 (direction_disabled (fun _ => tokenless_next)
                  sample_parseCursor sample_env (sample_args None false) Next)
           (fun _ => token_next)).
  reflexivity.
Defined.

(** The next target of the sample location carries the token [0:30:0]
    under [cursor]; the key [statsPeriod] and the path survive. *)
Lemma nav_target_frame_witness :
  to_query_lookup
    (to (next_button
       (renderTableHeader (fun _ => token_next) sample_parseCursor
          sample_env (sample_args None false)))) "cursor"
  = Some (QString "0:30:0")
  /\ to_query_lookup
       (to (next_button
          (renderTableHeader (fun _ => token_next) sample_parseCursor
             sample_env (sample_args None false)))) "statsPeriod"
     = Some (QString "14d")
  /\ to_pathname
       (to (next_button
          (renderTableHeader (fun _ => token_next) sample_parseCursor
             sample_env (sample_args None false))))
     = "/issues/42/events/".
Proof.
  destruct (nav_target_frame (fun _ => token_next) sample_parseCursor
              sample_env (sample_args None false) Next)
    as (Hpath & _ & _ & _ & _ & _ & Hcursor & Hkeys).
  split; [exact Hcursor |]. split; [|exact Hpath].
  etransitivity; [apply (Hkeys "statsPeriod"); discriminate |].
  vm_compute. reflexivity.
Defined.

(** C5 fails as stated: on the sample location, with a next descriptor that
    has no cursor token, the query of the next target still has the key
    [cursor]; it holds [undefined]. *)
Lemma tokenless_cursor_key_kept :
  link_of Next tokenless_next ≫= cursor = None
  /\ to_query_lookup
       (to (next_button
          (renderTableHeader (fun _ => tokenless_next) sample_parseCursor
             sample_env (sample_args None false)))) "cursor"
     = Some QUndefined
  /\ to_query_lookup
       (to (next_button
          (renderTableHeader (fun _ => tokenless_next) sample_parseCursor
             sample_env (sample_args None false)))) "cursor"
     <> None.
Proof.
  split; [reflexivity |].
  assert (H : to_query_lookup
       (to (next_button
          (renderTableHeader (fun _ => tokenless_next) sample_parseCursor
             sample_env (sample_args None false)))) "cursor"
     = Some QUndefined) by (vm_compute; reflexivity).
  split; [exact H |]. rewrite H. discriminate.
Qed.

Lemma tokenless_target_cursor_witness :
  link_of Next tokenless_next ≫= cursor = None
  /\ to_query_lookup
       (to (next_button
          (renderTableHeader (fun _ => tokenless_next) sample_parseCursor
             sample_env (sample_args None false)))) "cursor"
     = Some QUndefined.
Proof.
  split; [reflexivity |].
  apply (tokenless_target_cursor (fun _ => tokenless_next) sample_parseCursor
           sample_env (sample_args None false) Next).
  reflexivity.
Defined.

Lemma scenario_A_witness :
  sample_parseCursor (query_get (query (location sample_env)) "cursor")
  = Some {| offset := 10; value := "0"; hasResults := false |}
  /\ summary
       (renderTableHeader LinkHeaderParser.parse sample_parseCursor sample_env
          {| pageLinks := Some scenarioA;
             pageEventsCount := 20;
             totalEventsCount := 57;
             isPending := false |})
     = Some {| start := 10; end_ := 30; count := 57 |}.
Proof.
  assert (H : sample_parseCursor
                (query_get (query (location sample_env)) "cursor")
              = Some {| offset := 10; value := "0"; hasResults := false |})
    by (vm_compute; reflexivity).
  split; [exact H |].
  exact (proj1 (scenario_A sample_parseCursor sample_env _ H eq_refl)).
Defined.



(** C2 fails as stated: at a cursor of offset 2^53, with one event on the
    loaded page, the summary ends where it starts, at 2^53 and not at
    2^53 + 1: the sum of the two doubles rounds back. *)
Lemma summary_end_rounds :
  far_parseCursor (query_get (query far_location) "cursor")
  = Some {| offset := 9007199254740992; value := "0"; hasResults := false |}
  /\ summary
       (renderTableHeader (fun _ => scenarioA_links) far_parseCursor
          (env_at far_location)
          {| pageLinks := None;
             pageEventsCount := 1;
             totalEventsCount := 9007199254740992;
             isPending := false |})
     = Some {| start := 9007199254740992;
               end_ := 9007199254740992;
               count := 9007199254740992 |}
  /\ number_value 9007199254740992 = Some (2 ^ 53)%Z
  /\ number_value 1 = Some 1%Z
  /\ number_value (9007199254740992 + 1) <> Some (2 ^ 53 + 1)%Z.
Proof.
  split; [vm_compute; reflexivity |].
  split; [vm_compute; reflexivity |].
  split; [vm_compute; reflexivity |].
  split; [vm_compute; reflexivity |].
  vm_compute. discriminate.
Qed.

(** The next target is the same under two groups, themes and base URLs, a
    pending and a loaded page, and two cursor decoders. *)
Lemma nav_target_deterministic_witness :
  to (next_button
        (renderTableHeader (fun _ => scenarioA_links) sample_parseCursor
           sample_env (sample_args None false)))
  = to (next_button
        (renderTableHeader LinkHeaderParser.parse (fun _ => None)
           other_env (sample_args (Some scenarioA) true))).
Proof.
  apply (nav_target_deterministic
           (fun _ => scenarioA_links) LinkHeaderParser.parse
           sample_parseCursor (fun _ => None)
           sample_env other_env
           (sample_args None false) (sample_args (Some scenarioA) true)
           Next Next).
  - reflexivity.
  - vm_compute. reflexivity.
  - reflexivity.
Defined.

Lemma derived_state_inputs_witness :
  derived (renderTableHeader LinkHeaderParser.parse sample_parseCursor
             sample_env (sample_args (Some scenarioA) false))
  = derived (renderTableHeader LinkHeaderParser.parse sample_parseCursor
               other_env (sample_args (Some scenarioA) false)).
Proof.
  apply derived_state_inputs; reflexivity.
Defined.

(** The two evaluations above do differ outside the derived state: the
    close target follows the base URL. *)
Lemma close_target_follows_base_url :
  to (close_button
        (renderTableHeader LinkHeaderParser.parse sample_parseCursor
           sample_env (sample_args (Some scenarioA) false)))
  <> to (close_button
        (renderTableHeader LinkHeaderParser.parse sample_parseCursor
           other_env (sample_args (Some scenarioA) false))).
Proof. simpl. intros [=]. Qed.

(** * Navigation: what the callback reads back from what it wrote *)

Lemma query_get_insert (m : Query) k v : query_get (Some (<[k := v]> m)) k = v.
Proof. unfold query_get. by rewrite lookup_insert_eq. Qed.

Lemma query_get_delete (m : Query) k :
  query_get (Some (delete k m)) k = QUndefined.
Proof. unfold query_get. by rewrite lookup_delete_eq. Qed.

Lemma token_value_inj c1 c2 : token_value c1 = token_value c2 -> c1 = c2.
Proof. destruct c1, c2; simpl; congruence. Qed.

Lemma summary_reads_cursor parseLinkHeader parseCursor env args :
  summary (renderTableHeader parseLinkHeader parseCursor env args)
  = if isPending args then None
    else
      let start :=
        from_option offset 0
          (parseCursor (query_get (query (location env)) "cursor")) in
      Some {| start := start;
              end_ := start + pageEventsCount args;
              count := totalEventsCount args |}.
Proof. reflexivity. Qed.

Section NavigationProperties.

Variable parseLinkHeader : option string -> Links.
Variable parseCursor : QueryValue -> option Cursor.

Abbreviation render_at := (renderTableHeader parseLinkHeader parseCursor).

(** X1: on the page whose location carries the query of a direction's
    target, the loaded summary starts at the offset decoded from the cursor
    token of that direction (from [undefined] when the link had no token),
    and spans the new page. *)
Theorem summary_after_navigation env env' args args' d :
  query (location env') = to_query (to (button_of d (render_at env args))) ->
  isPending args' = false ->
  let token := link_of d (parseLinkHeader (pageLinks args)) ≫= cursor in
  let first := from_option offset 0 (parseCursor (token_value token)) in
  summary (render_at env' args')
  = Some {| start := first;
            end_ := first + pageEventsCount args';
            count := totalEventsCount args' |}.
Proof.
  intros Hq Hloaded. cbv zeta.
  rewrite summary_reads_cursor, Hloaded, Hq, to_button_of. cbv zeta.
  unfold spread_location; cbn [to_query]. by rewrite query_get_insert.
Qed.

(** X2: a location whose query holds [cursor: undefined], the same location
    without the key, and a location with no query object at all give the
    same summary. *)
Theorem summary_undefined_cursor (q : Query) env1 env2 env3 args :
  query (location env1) = Some (<["cursor" := QUndefined]> q) ->
  query (location env2) = Some (delete "cursor" q) ->
  query (location env3) = None ->
  summary (renderTableHeader parseLinkHeader parseCursor env1 args)
  = summary (renderTableHeader parseLinkHeader parseCursor env2 args)
  /\ summary (renderTableHeader parseLinkHeader parseCursor env2 args)
     = summary (renderTableHeader parseLinkHeader parseCursor env3 args).
Proof.
  intros H1 H2 H3. rewrite !summary_reads_cursor, H1, H2, H3.
  by rewrite query_get_insert, query_get_delete.
Qed.

(** X3: the cursor key is overwritten, never accumulated: at a location
    that carries the query of some direction's target, and with the same
    links, every button gets the query it had at the location before. *)
Theorem nav_target_overwrites env env' args args' d d' :
  query (location env') = to_query (to (button_of d (render_at env args))) ->
  parseLinkHeader (pageLinks args') = parseLinkHeader (pageLinks args) ->
  to_query (to (button_of d' (render_at env' args')))
  = to_query (to (button_of d' (render_at env args))).
Proof.
  intros Hq Hlinks. rewrite !to_button_of, Hq, Hlinks, to_button_of.
  unfold spread_location. cbn [to_query]. f_equal.
  change (spread_query (Some ?m)) with m. apply insert_insert_eq.
Qed.

(** X4: the previous and the next button point to the same location exactly
    when the two directions carry the same cursor token, or none both. *)
Theorem nav_targets_equal_iff env args :
  let links := parseLinkHeader (pageLinks args) in
  to (previous_button (renderTableHeader parseLinkHeader parseCursor env args))
  = to (next_button (renderTableHeader parseLinkHeader parseCursor env args))
  <-> link_of Previous links ≫= cursor = link_of Next links ≫= cursor.
Proof.
  cbv zeta.
  rewrite (to_button_of parseLinkHeader parseCursor env args Previous
           : to (previous_button (render_at env args)) = _).
  rewrite (to_button_of parseLinkHeader parseCursor env args Next
           : to (next_button (render_at env args)) = _).
  cbn [link_of]. split.
  - intros Heq. apply (f_equal (fun t => to_query_lookup t "cursor")) in Heq.
    unfold to_query_lookup, spread_location in Heq. cbn [to_query mbind option_bind] in Heq.
    rewrite !lookup_insert_eq in Heq. injection Heq as Heq.
    by apply token_value_inj.
  - by intros ->.
Qed.

(** X5: a location without a query object.  Each navigation target then
    gets a query that holds the [cursor] key alone; the close target gets no
    query. *)
Theorem targets_without_query env args d :
  query (location env) = None ->
  to_query (to (button_of d (render_at env args)))
  = Some {["cursor" :=
             token_value (link_of d (parseLinkHeader (pageLinks args)) ≫= cursor)]}
  /\ to_query (to (close_button (render_at env args))) = None.
Proof.
  intros Hq. rewrite to_button_of, Hq. split; [|by simpl; rewrite Hq].
  unfold spread_location. cbn [to_query].
  change (spread_query None) with (∅ : Query). by rewrite insert_empty.
Qed.

End NavigationProperties.

(** * The component *)

Section ComponentProperties.

Variable parseLinkHeader : option string -> Links.
Variable parseCursor : QueryValue -> option Cursor.
Variable EventView : Type.
Variable useEventColumns : Group -> string -> list string * list string.
Variable useIssueDetailsEventView : Group -> list string -> EventView.
Variable ALL_EVENTS_EXCLUDED_TAGS : list string.
Variable PERFORMANCE_DURATION_REGRESSION : string.
Variable PERFORMANCE_ENDPOINT_REGRESSION : string.

Abbreviation event_list :=
  (EventList parseLinkHeader parseCursor EventView useEventColumns
     useIssueDetailsEventView ALL_EVENTS_EXCLUDED_TAGS
     PERFORMANCE_DURATION_REGRESSION PERFORMANCE_ENDPOINT_REGRESSION).

Lemma EventList_transactionName env :
  EventsTable.transactionName (event_list env)
  = js_or (group_title (group env)) (group_type (group env)).
Proof. unfold EventList. by destruct (useEventColumns _ _). Qed.

Lemma EventList_setError env err :
  EventsTable.setError (event_list env) err = nullish_or_empty err.
Proof. unfold EventList. by destruct (useEventColumns _ _). Qed.

(** X6: the transaction name handed to the table is the group's title, and
    the group's type when the title is empty; it is empty only when both
    are. *)
Theorem transaction_name_fallback env :
  let name :=
    EventsTable.transactionName
      (EventList parseLinkHeader parseCursor EventView useEventColumns
         useIssueDetailsEventView ALL_EVENTS_EXCLUDED_TAGS
         PERFORMANCE_DURATION_REGRESSION PERFORMANCE_ENDPOINT_REGRESSION
         env) in
  let g := group env in
  (group_title g <> "" /\ name = group_title g
   \/ group_title g = "" /\ name = group_type g)
  /\ (name = "" <-> group_title g = "" /\ group_type g = "").
Proof.
  cbv zeta. rewrite EventList_transactionName. unfold js_or.
  destruct (String.eqb_spec (group_title (group env)) "") as [Ht | Ht].
  - rewrite Ht. split; [by right |]. split; [by intros -> | by intros [_ ->]].
  - split; [by left |]. split; [by intros ? | by intros [? _]].
Qed.

(** X7: the error state after a run of reports is the last report, and the
    empty string when that report was [undefined]; earlier reports leave no
    trace. *)
Theorem error_state_last_report env (reports : list (option string)) err :
  error_after parseLinkHeader parseCursor EventView useEventColumns
    useIssueDetailsEventView ALL_EVENTS_EXCLUDED_TAGS
    PERFORMANCE_DURATION_REGRESSION PERFORMANCE_ENDPOINT_REGRESSION
    env (reports ++ [err])
  = default "" err.
Proof.
  unfold error_after. rewrite fold_left_app. simpl.
  apply EventList_setError.
Qed.

End ComponentProperties.

(** * Concrete evaluations of the navigation properties *)

(** After the next target of scenario A has been followed from the sample
    location, the summary starts at the offset of the token [10:20:0]. *)
Lemma summary_after_navigation_witness :
  summary
    (renderTableHeader (fun _ => scenarioA_links) paging_parseCursor
       (env_at followed_next_location) (sample_args None false))
  = Some {| start := 20; end_ := 40; count := 57 |}.
Proof.
  apply (summary_after_navigation (fun _ => scenarioA_links)
           paging_parseCursor sample_env (env_at followed_next_location)
           (sample_args None false) (sample_args None false) Next).
  - reflexivity.
  - reflexivity.
Defined.

Lemma summary_undefined_cursor_witness :
  summary
    (renderTableHeader (fun _ => tokenless_next) paging_parseCursor
       (env_at undefined_cursor_location) (sample_args None false))
  = summary
      (renderTableHeader (fun _ => tokenless_next) paging_parseCursor
         (env_at no_cursor_location) (sample_args None false))
  /\ summary
       (renderTableHeader (fun _ => tokenless_next) paging_parseCursor
          (env_at no_cursor_location) (sample_args None false))
     = summary
         (renderTableHeader (fun _ => tokenless_next) paging_parseCursor
            (env_at bare_location) (sample_args None false)).
Proof.
  apply (summary_undefined_cursor (fun _ => tokenless_next)
           paging_parseCursor (<["statsPeriod" := QString "14d"]> ∅)
           (env_at undefined_cursor_location) (env_at no_cursor_location)
           (env_at bare_location) (sample_args None false)).
  - reflexivity.
  - reflexivity.
  - reflexivity.
Defined.

(** Next, then previous: the previous target computed on the page reached
    through next is the one computed before. *)
Lemma nav_target_overwrites_witness :
  to_query
    (to (previous_button
       (renderTableHeader (fun _ => scenarioA_links) paging_parseCursor
          (env_at followed_next_location) (sample_args None true))))
  = to_query
      (to (previous_button
         (renderTableHeader (fun _ => scenarioA_links) paging_parseCursor
            sample_env (sample_args None false)))).
Proof.
  apply (nav_target_overwrites (fun _ => scenarioA_links) paging_parseCursor
           sample_env (env_at followed_next_location)
           (sample_args None false) (sample_args None true) Next Previous).
  - reflexivity.
  - reflexivity.
Defined.

Lemma targets_without_query_witness :
  to_query
    (to (next_button
       (renderTableHeader (fun _ => scenarioA_links) paging_parseCursor
          (env_at bare_location) (sample_args None false))))
  = Some {["cursor" := QString "10:20:0"]}
  /\ to_query
       (to (close_button
          (renderTableHeader (fun _ => scenarioA_links) paging_parseCursor
             (env_at bare_location) (sample_args None false))))
     = None.
Proof.
  apply (targets_without_query (fun _ => scenarioA_links) paging_parseCursor
           (env_at bare_location) (sample_args None false) Next).
  reflexivity.
Defined.
